(** * EasyTerm: the configuration and title logic of [easyterm.py]

    A shallow embedding of the decision logic of [src/easyterm/easyterm.py]:
    the command-line parsing of [EasyTerm.do_command_line], the defaulting of
    [MainWindow.__init__], the colour choice of [Terminal.__init__] and the
    title handler [MainWindow.update_title].

    Python [str] values are sequences of Unicode code points.  GTK, VTE, GLib
    and [shlex] are collaborators of the program, not part of it: what the
    program reads from them is a field of the class [Host]. *)

From Stdlib Require Import List NArith ZArith QArith Bool Lia.
From Stdlib Require Import Strings.String Strings.Ascii.
Import ListNotations.

Local Open Scope N_scope.
Local Open Scope list_scope.

(** ** Python strings *)

Module PyStr.

(** A character is its code point, a [str] the list of its characters. *)
Definition char : Type := N.
Definition str : Type := list char.

Definition ord (c : ascii) : char := N_of_ascii c.

(** The [str] written by an ASCII literal of the source. *)
Definition py (s : string) : str := map ord (list_ascii_of_string s).

(** [str.isspace] on one character: the code points CPython's
    [_PyUnicode_IsWhitespace] accepts. *)
Definition isspace (c : char) : bool :=
  ((9 <=? c) && (c <=? 13)) || ((28 <=? c) && (c <=? 32))
  || (c =? 133) || (c =? 160) || (c =? 5760)
  || ((8192 <=? c) && (c <=? 8202))
  || (c =? 8232) || (c =? 8233) || (c =? 8239) || (c =? 8287) || (c =? 12288).

(** [s.split(sep)] for a one-character separator: every occurrence of [sep]
    cuts, so the result has one more element than [s] has separators. *)
Fixpoint split (sep : char) (s : str) : list str :=
  match s with
  | [] => [[]]
  | c :: s' =>
      if c =? sep then [] :: split sep s'
      else match split sep s' with
           | [] => [[c]]
           | w :: ws => (c :: w) :: ws
           end
  end.

(** [sep.join(l)]. *)
Fixpoint join (sep : char) (l : list str) : str :=
  match l with
  | [] => []
  | [x] => x
  | x :: rest => x ++ sep :: join sep rest
  end.

(** [s.lstrip()], [s.rstrip()] and [s.strip()] without argument. *)
Fixpoint lstrip (s : str) : str :=
  match s with
  | [] => []
  | c :: s' => if isspace c then lstrip s' else s
  end.

Definition rstrip (s : str) : str := rev (lstrip (rev s)).

Definition strip (s : str) : str := rstrip (lstrip s).

(** [sep not in s]. *)
Definition free (sep : char) (s : str) : Prop := ~ In sep s.

(** No whitespace at the start, or at the end, of a string. *)
Definition starts_clean (s : str) : Prop :=
  match s with
  | [] => True
  | c :: _ => isspace c = false
  end.

Definition ends_clean (s : str) : Prop := starts_clean (rev s).

(** Truth value of a [str]: the empty string is false. *)
Definition truthy (s : str) : bool :=
  match s with [] => false | _ :: _ => true end.

(** [a or b] on strings. *)
Definition str_or (a b : str) : str := if truthy a then a else b.

End PyStr.
Import PyStr.

(** ** Action descriptors *)

(** The dict with keys ["tooltip"], ["icon"] and ["command"] that
    [do_command_line] appends for a descriptor. *)
Record ActionSpec : Type := mkAction {
  tooltip : str;
  icon : str;
  command : str
}.

Definition DEFAULT_ICON : str := py "system-run-symbolic".

(** One turn of the loop [for spec in raw.split(",")] of [do_command_line];
    [actions] is the list built so far, [continue] leaves it as it is. *)
Definition action_step (actions : list ActionSpec) (spec : str)
  : list ActionSpec :=
  let spec := strip spec in
  if negb (truthy spec) then actions
  else
    match split (ord ":") spec with
    | [t; i; cmd] => actions ++ [mkAction t i cmd]
    | [t; cmd] => actions ++ [mkAction t DEFAULT_ICON cmd]
    | _ => actions
    end.

(** The [--actions] branch of [do_command_line], from [actions = []]. *)
Definition parse_actions (raw : str) : list ActionSpec :=
  fold_left action_step (split (ord ",") raw) [].

(** ** Colours *)

(** [Gdk.RGBA]: four channels.  The source writes them as decimal literals,
    kept here as the rationals the literals denote. *)
Record RGBA : Type := mkRGBA {
  red : Q;
  green : Q;
  blue : Q;
  alpha : Q
}.

(** Attribute assignments [c.red = v] and the like. *)
Definition set_red (v : Q) (c : RGBA) : RGBA :=
  mkRGBA v (green c) (blue c) (alpha c).
Definition set_green (v : Q) (c : RGBA) : RGBA :=
  mkRGBA (red c) v (blue c) (alpha c).
Definition set_blue (v : Q) (c : RGBA) : RGBA :=
  mkRGBA (red c) (green c) v (alpha c).
Definition set_alpha (v : Q) (c : RGBA) : RGBA :=
  mkRGBA (red c) (green c) (blue c) v.

(** ** What the program takes from its host *)

(** Uncaught Python exceptions the modelled code can raise. *)
Inductive exn : Type :=
| ValueError.

Inductive outcome (A : Type) : Type :=
| Returns (a : A)
| Raises (e : exn).
Arguments Returns {A} a.
Arguments Raises {A} e.

Definition bind {A B : Type} (m : outcome A) (k : A -> outcome B)
  : outcome B :=
  match m with
  | Returns a => k a
  | Raises e => Raises e
  end.

Notation "x <- m ;; k" := (bind m (fun x => k))
  (at level 61, m at next level, right associativity).

(** The library calls whose results the program uses:
    - [os_getcwd]: [os.getcwd()] when the module is loaded;
    - [RGBA_new]: the value of a fresh [Gdk.RGBA()];
    - [RGBA_parse c spec]: the call [c.parse(spec)], as the flag it returns
      and the value of [c] afterwards;
    - [shlex_split s]: [shlex.split(s)], which raises [ValueError] on an
      unbalanced quote. *)
Class Host : Type := {
  os_getcwd : str;
  RGBA_new : RGBA;
  RGBA_parse : RGBA -> str -> bool * RGBA;
  shlex_split : str -> outcome (list str)
}.

Section Program.

Context {host : Host}.

(** ** Module constants *)

Definition CONF_NAME : str := py "EasyTerm".
Definition CONF_DEF_CWD : str := os_getcwd.
Definition CONF_DEF_CMD : list str := [py "/bin/bash"].

Definition CONF_FG : RGBA :=
  set_alpha 1.0 (set_blue 0.8 (set_green 0.8 (set_red 0.8 RGBA_new))).

Definition CONF_BG : RGBA :=
  set_alpha 1.0 (set_blue 0.1 (set_green 0.1 (set_red 0.1 RGBA_new))).

(** ** Terminal *)

(** The arguments of [spawn_async] that the program chooses. *)
Record SpawnArgs : Type := mkSpawn {
  spawn_cwd : str;
  spawn_argv : list str;
  spawn_envv : list str
}.

(** The state of the [Vte.Terminal] widget that the program sets or reads:
    the foreground and background given to [set_colors], the title [get_window_title()]
    returns ([None] until the child sets one), the pending [spawn_async]
    call and the texts given to [feed_child], oldest first. *)
Record Terminal : Type := mkTerminal {
  foreground : RGBA;
  background : RGBA;
  window_title : option str;
  spawned : option SpawnArgs;
  fed : list str
}.

Definition spawn_async (cwd : str) (argv envv : list str) (t : Terminal)
  : Terminal :=
  mkTerminal (foreground t) (background t) (window_title t)
    (Some (mkSpawn cwd argv envv)) (fed t).

Definition feed_child (text : str) (t : Terminal) : Terminal :=
  mkTerminal (foreground t) (background t) (window_title t) (spawned t)
    (fed t ++ [text]).

(** [Terminal.__init__]: the colours.  [palette is None or len(palette) < 2]
    is the case of a list without two leading elements; otherwise
    [palette[0]] and [palette[1]] are those two. *)
Definition Terminal_init (palette : option (list RGBA)) : Terminal :=
  let '(fg, bg) :=
    match palette with
    | Some (p0 :: p1 :: _) => (p0, p1)
    | _ => (CONF_FG, CONF_BG)
    end in
  mkTerminal fg bg None None [].

(** [Terminal.run_command]: the command and a newline. *)
Definition NEWLINE : char := 10.

Definition run_command (cmd : str) (t : Terminal) : Terminal :=
  feed_child (cmd ++ [NEWLINE]) t.

(** ** Header bar *)

(** A button of the header bar, with the command bound to its click. *)
Record Button : Type := mkButton {
  btn_tooltip : str;
  btn_icon : str;
  btn_command : str
}.

Record HeaderBar : Type := mkHeaderBar {
  title_label : str;
  actions_box : list Button
}.

Definition HeaderBar_init : HeaderBar := mkHeaderBar CONF_NAME [].

(** [HeaderBar.build_actions]: one button per action, appended in order. *)
Definition build_actions (actions : list ActionSpec) (h : HeaderBar)
  : HeaderBar :=
  fold_left
    (fun h action =>
       mkHeaderBar (title_label h)
         (actions_box h
            ++ [mkButton (tooltip action) (icon action) (command action)]))
    actions h.

Definition set_title (title : str) (h : HeaderBar) : HeaderBar :=
  mkHeaderBar title (actions_box h).

(** ** Main window *)

Inductive ColorScheme : Type :=
| DEFAULT
| FORCE_DARK.

(** The locals [cwd], [command], [env], [actions] and [palette] of
    [MainWindow.__init__] once it has filled in the defaults, and
    [dark_theme]. *)
Record SessionConfig : Type := mkConfig {
  workingDirectory : str;
  cfg_command : list str;
  environment : list str;
  cfg_actions : list ActionSpec;
  darkTheme : bool;
  cfg_palette : list RGBA
}.

(** The defaulting of [MainWindow.__init__].  [cwd] has the default [""];
    [not command] holds of [None] and of the empty list. *)
Definition resolve (cwd : str) (cmd : option (list str))
    (env : option (list str)) (actions : option (list ActionSpec))
    (dark_theme : bool) (palette : option (list RGBA)) : SessionConfig :=
  let actions := match actions with None => [] | Some a => a end in
  let cwd := match cwd with [] => CONF_DEF_CWD | _ :: _ => cwd end in
  let cmd :=
    match cmd with
    | None | Some [] => CONF_DEF_CMD
    | Some ((_ :: _) as c) => c
    end in
  let env := match env with None => [] | Some e => e end in
  let palette := match palette with None => [] | Some p => p end in
  mkConfig cwd cmd env actions dark_theme palette.

Record MainWindow : Type := mkWindow {
  terminal : Terminal;
  headerbar : HeaderBar;
  color_scheme : ColorScheme
}.

(** [MainWindow.__init__]: the terminal gets the palette as passed, the
    header bar the actions, and the child is spawned with the defaulted
    directory, command and environment. *)
Definition MainWindow_init (cwd : str) (cmd : option (list str))
    (env : option (list str)) (actions : option (list ActionSpec))
    (dark_theme : bool) (palette : option (list RGBA)) : MainWindow :=
  let term := Terminal_init palette in
  let bar := HeaderBar_init in
  let scheme := if dark_theme then FORCE_DARK else DEFAULT in
  let cfg := resolve cwd cmd env actions dark_theme palette in
  let bar :=
    match cfg_actions cfg with
    | [] => bar
    | _ :: _ => build_actions (cfg_actions cfg) bar
    end in
  let term :=
    spawn_async (workingDirectory cfg) (cfg_command cfg) (environment cfg)
      term in
  mkWindow term bar scheme.

(** [MainWindow.update_title], the handler of both signals; [args] are the
    signal's own arguments, which it does not read. *)
Definition update_title (self : MainWindow) (term : Terminal) (args : list Z)
  : MainWindow :=
  let title :=
    match window_title term with
    | Some t => str_or t CONF_NAME
    | None => CONF_NAME
    end in
  mkWindow (terminal self) (set_title title (headerbar self))
    (color_scheme self).

(** The signals of the terminal that the window connects to. *)
Inductive signal : Type :=
| window_title_changed
| child_exited (status : Z).

Definition emit (s : signal) (w : MainWindow) : MainWindow :=
  match s with
  | window_title_changed => update_title w (terminal w) []
  | child_exited status => update_title w (terminal w) [status]
  end.

(** The title shown to the user. *)
Definition displayedTitle (w : MainWindow) : str :=
  title_label (headerbar w).

(** The two events of the title logic, as the terminal raises them: the
    child sets a window title, which the widget stores before it emits
    [window-title-changed]; the child exits, and the widget emits
    [child-exited] with the stored title left as it was. *)
Definition onTitleChanged (newTitle : str) (w : MainWindow) : MainWindow :=
  let t := terminal w in
  let t := mkTerminal (foreground t) (background t) (Some newTitle)
             (spawned t) (fed t) in
  emit window_title_changed
    (mkWindow t (headerbar w) (color_scheme w)).

Definition onChildExited (exitCode : Z) (w : MainWindow) : MainWindow :=
  emit (child_exited exitCode) w.

(** A click on the [n]-th button of the header bar: [run_command_btn]. *)
Definition click (n : nat) (w : MainWindow) : MainWindow :=
  match nth_error (actions_box (headerbar w)) n with
  | Some b =>
      mkWindow (run_command (btn_command b) (terminal w)) (headerbar w)
        (color_scheme w)
  | None => w
  end.

(** ** Application *)

Record EasyTerm : Type := mkApp {
  app_cwd : str;
  app_command : list str;
  app_env : list str;
  app_actions : list ActionSpec;
  app_dark_theme : bool;
  app_palette : list RGBA;
  active_window : option MainWindow
}.

Definition list_or {A : Type} (l : option (list A)) : list A :=
  match l with None => [] | Some l => l end.

(** [EasyTerm.__init__]. *)
Definition EasyTerm_init (cwd : str) (cmd env : option (list str))
    (actions : option (list ActionSpec)) : EasyTerm :=
  mkApp cwd (list_or cmd) (list_or env) (list_or actions) true [] None.

(** The options dictionary of the command line.  [__register_arguments]
    fixes the type of each entry: a string for five of them, a flag for
    [light-theme]. *)
Record Options : Type := mkOptions {
  opt_cwd : option str;
  opt_command : option str;
  opt_env : option str;
  opt_actions : option str;
  opt_light_theme : bool;
  opt_palette : option str
}.

(** The [--env] branch. *)
Definition parse_env (env_str : str) : list str :=
  if truthy env_str then split (ord " ") env_str else [].

(** The [--palette] branch, from [palette = []]. *)
Definition parse_palette (value : str) : list RGBA :=
  match split (ord " ") value with
  | t0 :: t1 :: _ =>
      let back := snd (RGBA_parse RGBA_new t0) in
      let fore := snd (RGBA_parse RGBA_new t1) in
      [back; fore]
  | _ => []
  end.

(** The [--command] branch, from [command = []]. *)
Definition command_tokens (options : Options) : outcome (list str) :=
  match opt_command options with
  | Some command_str => shlex_split command_str
  | None => Returns []
  end.

(** [EasyTerm.do_activate]. *)
Definition do_activate (self : EasyTerm) : EasyTerm :=
  match active_window self with
  | Some _ => self
  | None =>
      let win :=
        MainWindow_init (app_cwd self) (Some (app_command self))
          (Some (app_env self)) (Some (app_actions self))
          (app_dark_theme self) (Some (app_palette self)) in
      mkApp (app_cwd self) (app_command self) (app_env self)
        (app_actions self) (app_dark_theme self) (app_palette self)
        (Some win)
  end.

(** [EasyTerm.do_command_line]: the exit status and the application
    afterwards. *)
Definition do_command_line (self : EasyTerm) (options : Options)
  : outcome (Z * EasyTerm) :=
  let cwd := match opt_cwd options with Some s => s | None => [] end in
  cmd <- command_tokens options ;;
  let env :=
    match opt_env options with Some s => parse_env s | None => [] end in
  let actions :=
    match opt_actions options with
    | Some raw => parse_actions raw
    | None => []
    end in
  let dark_theme := if opt_light_theme options then false else true in
  let palette :=
    match opt_palette options with
    | Some value => parse_palette value
    | None => []
    end in
  let self := mkApp cwd cmd env actions dark_theme palette
                (active_window self) in
  Returns (0%Z, do_activate self).

(** The application of [__main__], [EasyTerm()], and a command line
    without any option. *)
Definition main_app : EasyTerm := EasyTerm_init [] None None None.

Definition no_options : Options :=
  mkOptions None None None None false None.

(** The window that a run of [do_command_line] on [main_app] leaves
    active. *)
Definition launched (options : Options) : outcome (option MainWindow) :=
  r <- do_command_line main_app options ;;
  Returns (active_window (snd r)).

End Program.

(** A value with a space at its start, at its end, or two in a row. *)
Definition stray_space (v : str) : Prop :=
  (exists r, v = ord " " :: r)
  \/ (exists r, v = r ++ [ord " "])
  \/ (exists a b, v = a ++ ord " " :: ord " " :: b).

(** ** The action grammar in the words of the specification *)

(** What one trimmed descriptor yields: nothing when it is empty, a record
    by its number of [:]-separated fields otherwise. *)
Definition descriptor_spec (d : str) : list ActionSpec :=
  match d with
  | [] => []
  | _ :: _ =>
      match split (ord ":") d with
      | [t; i; c] => [mkAction t i c]
      | [t; c] => [mkAction t DEFAULT_ICON c]
      | _ => []
      end
  end.

(** Split on [,], trim each descriptor, keep what each one yields, in
    order. *)
Definition ActionSpecParser_spec (raw : str) : list ActionSpec :=
  flat_map descriptor_spec (map strip (split (ord ",") raw)).

(** The shape of a record that comes out of the parser: no field holds a
    [:] or a [,], the tooltip does not start and the command does not end
    with whitespace. *)
Definition canonical (a : ActionSpec) : Prop :=
  Forall (fun f => free (ord ":") f /\ free (ord ",") f)
    [tooltip a; icon a; command a]
  /\ starts_clean (tooltip a) /\ ends_clean (command a).

(** Writing a record back in the three-field form, and a sequence of them
    joined by [,]. *)
Definition serialize (a : ActionSpec) : str :=
  join (ord ":") [tooltip a; icon a; command a].

Definition serialize_all (l : list ActionSpec) : str :=
  join (ord ",") (map serialize l).

(** ** A host to run the program on *)

Definition hex_digit (c : char) : option N :=
  if (48 <=? c) && (c <=? 57) then Some (c - 48)
  else if (97 <=? c) && (c <=? 102) then Some (c - 87)
  else if (65 <=? c) && (c <=? 70) then Some (c - 55)
  else None.

Definition hex_channel (hi lo : char) : option Q :=
  match hex_digit hi, hex_digit lo with
  | Some h, Some l => Some (Qred (Z.of_N (16 * h + l) # 255))
  | _, _ => None
  end.

(** The hexadecimal colour literals [#rgb] and [#rrggbb], opaque. *)
Definition parse_hex (spec : str) : option RGBA :=
  let rgb r g b :=
    match r, g, b with
    | Some r, Some g, Some b => Some (mkRGBA r g b 1)
    | _, _, _ => None
    end in
  match spec with
  | [35; r; g; b] => rgb (hex_channel r r) (hex_channel g g) (hex_channel b b)
  | [35; r1; r2; g1; g2; b1; b2] =>
      rgb (hex_channel r1 r2) (hex_channel g1 g2) (hex_channel b1 b2)
  | _ => None
  end.

(** A host that knows the hexadecimal colours only, leaves a colour as it
    was when it rejects a literal, and tokenizes a command that has no
    quote or backslash at its spaces. *)
Definition example_host : Host := {|
  os_getcwd := py "/home/user";
  RGBA_new := mkRGBA 1 1 1 1;
  RGBA_parse c spec :=
    match parse_hex spec with
    | Some c' => (true, c')
    | None => (false, c)
    end;
  shlex_split s :=
    if existsb (fun c => (c =? 34) || (c =? 39) || (c =? 92)) s
    then Raises ValueError
    else Returns (filter truthy (split (ord " ") s))
|}.

Definition white : RGBA := mkRGBA 1 1 1 1.
Definition black : RGBA := mkRGBA 0 0 0 1.

(** ** Fonts *)

(** [a == b] on strings, and [x in l] on a list of strings. *)
Fixpoint str_eqb (a b : str) : bool :=
  match a, b with
  | [], [] => true
  | x :: a', y :: b' => (x =? y) && str_eqb a' b'
  | _, _ => false
  end.

Definition contains (x : str) (l : list str) : bool := existsb (str_eqb x) l.

Definition CONF_FONT_FAMILY : str := py "DejaVu Sans Mono".

Definition CONF_FONT_FALLBACKS : list str :=
  [py "Liberation Mono"; py "Cascadia Mono"; py "Fira Code"; py "Monospace"].

(** The loop of [select_font_family]: the first candidate that is among the
    available families, if there is one. *)
Fixpoint first_candidate (candidates available : list str) : option str :=
  match candidates with
  | [] => None
  | candidate :: rest =>
      if contains candidate available then Some candidate
      else first_candidate rest available
  end.

(** [select_font_family]. *)
Definition select_font_family (available_families : list str) : str :=
  match
    first_candidate (CONF_FONT_FAMILY :: CONF_FONT_FALLBACKS)
      available_families
  with
  | Some candidate => candidate
  | None =>
      match available_families with
      | first :: _ => first
      | [] => CONF_FONT_FAMILY
      end
  end.

(** ** The library wrapper *)

(** The attributes [EasyTermLib.__init__] stores. *)
Record EasyTermLib : Type := mkLib {
  lib_cwd : str;
  lib_command : list str;
  lib_env : list str;
  lib_actions : list ActionSpec;
  lib_dark_theme : bool;
  lib_palette : list RGBA
}.

(** [EasyTermLib.__init__], up to the start of the application. *)
Definition EasyTermLib_init (cwd : str) (cmd env : option (list str))
    (actions : option (list ActionSpec)) (dark_theme : bool)
    (palette : option (list RGBA)) : EasyTermLib :=
  mkLib cwd (list_or cmd) (list_or env) (list_or actions) dark_theme
    (list_or palette).

(** [EasyTermLib._on_activate]: the window it builds. *)
Definition lib_on_activate {host : Host} (self : EasyTermLib) : MainWindow :=
  MainWindow_init (lib_cwd self) (Some (lib_command self))
    (Some (lib_env self)) (Some (lib_actions self)) (lib_dark_theme self)
    (Some (lib_palette self)).

(** ** Runs of the title logic *)

(** What the terminal tells the window, in the order it happens. *)
Inductive event : Type :=
| TitleChanged (newTitle : str)
| ChildExited (exitCode : Z).

Definition deliver (w : MainWindow) (e : event) : MainWindow :=
  match e with
  | TitleChanged newTitle => onTitleChanged newTitle w
  | ChildExited exitCode => onChildExited exitCode w
  end.

Definition run (events : list event) (w : MainWindow) : MainWindow :=
  fold_left deliver events w.

(** The title the terminal holds after the events, from the one it held. *)
Definition last_title (events : list event) (held : option str)
  : option str :=
  fold_left
    (fun t e =>
       match e with
       | TitleChanged newTitle => Some newTitle
       | ChildExited _ => t
       end)
    events held.

(** The text shown for a title of the terminal. *)
Definition shown (t : option str) : str :=
  match t with
  | Some ((_ :: _) as title) => title
  | _ => CONF_NAME
  end.

(** The button [build_actions] makes for an action. *)
Definition button_of (a : ActionSpec) : Button :=
  mkButton (tooltip a) (icon a) (command a).

(** ** Whitespace and the last piece of a split *)

(** A string of whitespace only. *)
Definition blank (s : str) : Prop := Forall (fun c => isspace c = true) s.

(** [q] added to the last string of a list. *)
Fixpoint app_last (l : list str) (q : str) : list str :=
  match l with
  | [] => [q]
  | [w] => [w ++ q]
  | w :: rest => w :: app_last rest q
  end.

(** * Properties *)

(** A character that a literal does not hold. *)
Ltac absent :=
  let H := fresh "H" in
  intros H; vm_compute in H;
  repeat (destruct H as [H|H]; [discriminate H|]); exact H.

(** ** Splitting and joining *)

Section SplitJoin.

Variable sep : char.

Lemma split_not_nil (s : str) : split sep s <> [].
Proof.
  destruct s as [|c s]; simpl; [discriminate|].
  destruct (c =? sep); [discriminate|].
  destruct (split sep s); discriminate.
Qed.

Lemma split_free (s : str) : free sep s -> split sep s = [s].
Proof.
  unfold free. induction s as [|c s IH]; intros Hs; [reflexivity|].
  simpl. destruct (N.eqb_spec c sep) as [->|Hne].
  - exfalso. apply Hs. now left.
  - rewrite IH; [reflexivity|]. intros Hin. apply Hs. now right.
Qed.

Lemma split_app (a b : str) :
  free sep a -> split sep (a ++ sep :: b) = a :: split sep b.
Proof.
  unfold free. induction a as [|c a IH]; intros Ha; simpl.
  - now rewrite N.eqb_refl.
  - destruct (N.eqb_spec c sep) as [->|Hne].
    + exfalso. apply Ha. now left.
    + rewrite IH; [reflexivity|]. intros Hin. apply Ha. now right.
Qed.

Lemma split_at_sep (a b : str) :
  split sep (a ++ sep :: b) = split sep a ++ split sep b.
Proof.
  induction a as [|c a IH]; simpl.
  - now rewrite N.eqb_refl.
  - destruct (N.eqb_spec c sep) as [->|Hne].
    + now rewrite IH.
    + rewrite IH. pose proof (split_not_nil a) as Hnn.
      now destruct (split sep a).
Qed.

Lemma split_join (l : list str) :
  l <> [] -> Forall (free sep) l -> split sep (join sep l) = l.
Proof.
  induction l as [|x l IH]; intros Hne Hall; [congruence|].
  inversion Hall as [|? ? Hx Hl]; subst.
  destruct l as [|y l].
  - simpl. now apply split_free.
  - change (join sep (x :: y :: l)) with (x ++ sep :: join sep (y :: l)).
    rewrite split_app by assumption.
    rewrite IH; [reflexivity|discriminate|assumption].
Qed.

Lemma split_all_free (s : str) : Forall (free sep) (split sep s).
Proof.
  unfold free. induction s as [|c s IH]; simpl.
  - constructor; [intros []|constructor].
  - destruct (N.eqb_spec c sep) as [->|Hne].
    + constructor; [intros []|assumption].
    + destruct (split sep s) as [|w ws].
      * constructor; [|constructor]. intros [H|[]]. congruence.
      * inversion IH as [|? ? Hw Hws]; subst.
        constructor; [|assumption]. intros [H|H]; [congruence|tauto].
Qed.

Lemma join_split (s : str) : join sep (split sep s) = s.
Proof.
  induction s as [|c s IH]; [reflexivity|].
  simpl. destruct (N.eqb_spec c sep) as [->|Hne].
  - pose proof (split_not_nil s) as Hnn.
    destruct (split sep s) as [|w ws]; [congruence|].
    change (join sep ([] :: w :: ws)) with (sep :: join sep (w :: ws)).
    now rewrite IH.
  - pose proof (split_not_nil s) as Hnn.
    destruct (split sep s) as [|w ws]; [congruence|].
    destruct ws as [|w' ws]; simpl in *; now rewrite <- IH.
Qed.

Lemma split_incl (s w : str) : In w (split sep s) -> incl w s.
Proof.
  revert w. induction s as [|c s IH]; intros w; simpl.
  - intros [<-|[]]. apply incl_refl.
  - destruct (N.eqb_spec c sep) as [->|Hne].
    + intros [<-|Hin]; [intros ? []|].
      apply incl_tl. now apply IH.
    + destruct (split sep s) as [|w0 ws].
      * intros [<-|[]]. intros x [<-|[]]. now left.
      * intros [<-|Hin].
        -- apply incl_cons; [now left|].
           apply incl_tl. apply IH. now left.
        -- apply incl_tl. apply IH. now right.
Qed.

End SplitJoin.

(** ** Trimming *)

Lemma lstrip_starts_clean (s : str) : starts_clean (lstrip s).
Proof.
  induction s as [|c s IH]; simpl; [exact I|].
  destruct (isspace c) eqn:Hc; [assumption|exact Hc].
Qed.

Lemma lstrip_id (s : str) : starts_clean s -> lstrip s = s.
Proof.
  destruct s as [|c s]; simpl; [reflexivity|].
  now intros ->.
Qed.

Lemma lstrip_suffix (s : str) : exists p, s = p ++ lstrip s.
Proof.
  induction s as [|c s [p Hp]]; [now exists []|].
  simpl. destruct (isspace c).
  - exists (c :: p). simpl. now f_equal.
  - now exists [].
Qed.

Lemma rstrip_prefix (s : str) : exists q, s = rstrip s ++ q.
Proof.
  unfold rstrip. destruct (lstrip_suffix (rev s)) as [p Hp].
  exists (rev p).
  rewrite <- rev_app_distr, <- Hp. symmetry. apply rev_involutive.
Qed.

Lemma rstrip_ends_clean (s : str) : ends_clean (rstrip s).
Proof.
  unfold ends_clean, rstrip. rewrite rev_involutive.
  apply lstrip_starts_clean.
Qed.

Lemma rstrip_id (s : str) : ends_clean s -> rstrip s = s.
Proof.
  unfold ends_clean, rstrip. intros H.
  rewrite lstrip_id by assumption. apply rev_involutive.
Qed.

Lemma starts_clean_prefix (a b : str) :
  starts_clean (a ++ b) -> starts_clean a.
Proof. destruct a; simpl; auto. Qed.

Lemma ends_clean_suffix (a b : str) : ends_clean (a ++ b) -> ends_clean b.
Proof.
  unfold ends_clean. rewrite rev_app_distr. apply starts_clean_prefix.
Qed.

Lemma ends_clean_after (a b : str) (x : char) :
  ends_clean (a ++ x :: b) -> ends_clean b.
Proof.
  change (a ++ x :: b) with (a ++ [x] ++ b). rewrite app_assoc.
  apply ends_clean_suffix.
Qed.

Lemma ends_clean_app (a b : str) :
  b <> [] -> ends_clean b -> ends_clean (a ++ b).
Proof.
  unfold ends_clean. intros Hb H. rewrite rev_app_distr.
  destruct (rev b) as [|x r] eqn:Hr; [|exact H].
  apply (f_equal (@rev char)) in Hr. rewrite rev_involutive in Hr.
  contradiction.
Qed.

Lemma strip_clean (s : str) : starts_clean (strip s) /\ ends_clean (strip s).
Proof.
  unfold strip. split; [|apply rstrip_ends_clean].
  destruct (rstrip_prefix (lstrip s)) as [q Hq].
  apply starts_clean_prefix with (b := q). rewrite <- Hq.
  apply lstrip_starts_clean.
Qed.

Lemma strip_id (s : str) : starts_clean s -> ends_clean s -> strip s = s.
Proof.
  intros Hs He. unfold strip.
  rewrite lstrip_id by assumption. now apply rstrip_id.
Qed.

Lemma strip_incl (s : str) : incl (strip s) s.
Proof.
  unfold strip.
  destruct (rstrip_prefix (lstrip s)) as [q Hq].
  destruct (lstrip_suffix s) as [p Hp].
  intros x Hx. rewrite Hp. apply in_or_app. right.
  rewrite Hq. apply in_or_app. now left.
Qed.

Lemma free_incl (sep : char) (a b : str) : incl a b -> free sep b -> free sep a.
Proof. unfold free. intros Hab Hb Ha. apply Hb, Hab, Ha. Qed.

(** ** The action parser *)

Lemma action_step_descriptor (acc : list ActionSpec) (spec : str) :
  action_step acc spec = acc ++ descriptor_spec (strip spec).
Proof.
  unfold action_step, descriptor_spec.
  destruct (strip spec) as [|c d]; simpl truthy; cbv iota beta.
  - simpl. now rewrite app_nil_r.
  - simpl negb. cbv iota.
    destruct (split (ord ":") (c :: d)) as [|t [|x [|y [|z l]]]];
      now rewrite ?app_nil_r.
Qed.

Lemma fold_action_step (l : list str) (acc : list ActionSpec) :
  fold_left action_step l acc
  = acc ++ flat_map descriptor_spec (map strip l).
Proof.
  revert acc. induction l as [|spec l IH]; intros acc; simpl.
  - now rewrite app_nil_r.
  - now rewrite IH, action_step_descriptor, <- app_assoc.
Qed.

Lemma parse_actions_flat_map (raw : str) :
  parse_actions raw = ActionSpecParser_spec raw.
Proof. unfold parse_actions. now rewrite fold_action_step. Qed.

Lemma DEFAULT_ICON_free :
  free (ord ":") DEFAULT_ICON /\ free (ord ",") DEFAULT_ICON.
Proof.
  split; absent.
Qed.

(** The fields of a descriptor, put together again. *)
Lemma descriptor_fields (d : str) (a : ActionSpec) :
  In a (descriptor_spec d) ->
  d <> []
  /\ (split (ord ":") d = [tooltip a; icon a; command a]
      \/ (split (ord ":") d = [tooltip a; command a]
          /\ icon a = DEFAULT_ICON)).
Proof.
  unfold descriptor_spec. destruct d as [|c d]; [intros []|].
  destruct (split (ord ":") (c :: d)) as [|t [|x [|y [|z l]]]];
    simpl; try tauto.
  - intros [<-|[]]. split; [discriminate|]. right. now split.
  - intros [<-|[]]. split; [discriminate|]. now left.
Qed.

Lemma descriptor_canonical (d : str) :
  free (ord ",") d -> starts_clean d -> ends_clean d ->
  Forall canonical (descriptor_spec d).
Proof.
  intros Hcomma Hs He. apply Forall_forall. intros a Ha.
  apply descriptor_fields in Ha. destruct Ha as [_ Hsplit].
  pose proof (split_all_free (ord ":") d) as Hcolon.
  pose proof (join_split (ord ":") d) as Hjoin.
  assert (Hin : forall f, In f (split (ord ":") d) -> free (ord ",") f).
  { intros f Hf. eapply free_incl; [|exact Hcomma].
    eapply split_incl; exact Hf. }
  rewrite Forall_forall in Hcolon.
  destruct Hsplit as [Hsplit|[Hsplit Hicon]]; rewrite Hsplit in *.
  - split; [|split].
    + repeat (constructor;
               [split; [apply Hcolon|apply Hin]; simpl; tauto|]).
      constructor.
    + rewrite <- Hjoin in Hs. simpl in Hs.
      eapply starts_clean_prefix; exact Hs.
    + rewrite <- Hjoin in He. simpl in He.
      apply ends_clean_after in He. now apply ends_clean_after in He.
  - split; [|split].
    + rewrite Hicon.
      constructor; [split; [apply Hcolon|apply Hin]; simpl; tauto|].
      constructor; [exact DEFAULT_ICON_free|].
      constructor; [split; [apply Hcolon|apply Hin]; simpl; tauto|].
      constructor.
    + rewrite <- Hjoin in Hs. simpl in Hs.
      eapply starts_clean_prefix; exact Hs.
    + rewrite <- Hjoin in He. simpl in He.
      now apply ends_clean_after in He.
Qed.

Lemma parse_actions_canonical (raw : str) :
  Forall canonical (parse_actions raw).
Proof.
  rewrite parse_actions_flat_map. unfold ActionSpecParser_spec.
  pose proof (split_all_free (ord ",") raw) as Hfree.
  induction Hfree as [|spec l Hspec _ IH]; simpl; [constructor|].
  apply Forall_app. split; [|exact IH].
  destruct (strip_clean spec) as [Hs He].
  apply descriptor_canonical; try assumption.
  eapply free_incl; [apply strip_incl|exact Hspec].
Qed.

Lemma serialize_clean (a : ActionSpec) :
  canonical a -> starts_clean (serialize a) /\ ends_clean (serialize a).
Proof.
  intros (_ & Hs & He). unfold serialize. simpl. split.
  - destruct (tooltip a); [reflexivity|exact Hs].
  - apply ends_clean_app; [discriminate|].
    change (ends_clean ((ord ":" :: icon a) ++ ord ":" :: command a)).
    apply ends_clean_app; [discriminate|].
    destruct (command a) as [|c cmd]; [reflexivity|].
    change (ends_clean ([ord ":"] ++ c :: cmd)).
    apply ends_clean_app; [discriminate|exact He].
Qed.

Lemma split_serialize (a : ActionSpec) :
  canonical a ->
  split (ord ":") (serialize a) = [tooltip a; icon a; command a].
Proof.
  intros (Hf & _). unfold serialize.
  apply split_join; [discriminate|].
  eapply Forall_impl; [|exact Hf]. now intros f [H _].
Qed.

Lemma descriptor_serialize (a : ActionSpec) :
  canonical a -> descriptor_spec (strip (serialize a)) = [a].
Proof.
  intros Ha. destruct (serialize_clean a Ha) as [Hs He].
  rewrite strip_id by assumption.
  unfold descriptor_spec. rewrite split_serialize by assumption.
  destruct a as [t i c].
  destruct (serialize (mkAction t i c)) eqn:Hser; [|reflexivity].
  unfold serialize in Hser. simpl in Hser.
  now destruct t.
Qed.

Lemma serialize_free (a : ActionSpec) :
  canonical a -> free (ord ",") (serialize a).
Proof.
  intros (Hf & _). unfold serialize, free. simpl.
  inversion Hf as [|? ? [_ Ht] Hf1]; subst.
  inversion Hf1 as [|? ? [_ Hi] Hf2]; subst.
  inversion Hf2 as [|? ? [_ Hc] _]; subst.
  intros Hin.
  apply in_app_or in Hin. destruct Hin as [Hin|[Hin|Hin]];
    [now apply Ht|discriminate Hin|].
  apply in_app_or in Hin. destruct Hin as [Hin|[Hin|Hin]];
    [now apply Hi|discriminate Hin|now apply Hc].
Qed.

Lemma parse_serialize (l : list ActionSpec) :
  Forall canonical l -> parse_actions (serialize_all l) = l.
Proof.
  intros Hl. rewrite parse_actions_flat_map.
  unfold ActionSpecParser_spec, serialize_all.
  destruct l as [|a l]; [reflexivity|].
  rewrite split_join.
  - induction Hl as [|b l' Hb _ IH]; [reflexivity|].
    simpl. rewrite descriptor_serialize by assumption.
    simpl. now f_equal.
  - discriminate.
  - rewrite Forall_map. eapply Forall_impl; [|exact Hl].
    intros b. apply serialize_free.
Qed.

(** C1.  The [--actions] loop of [do_command_line] computes what the
    grammar says: the input is split on [,], each descriptor trimmed and
    split on [:]; three fields give tooltip, icon and command, two fields
    tooltip and command with the icon ["system-run-symbolic"], an empty
    descriptor or another number of fields gives nothing, and the records
    come out in descriptor order.  The input
    ["Build:system-run-symbolic:make build,Test:make test"] gives the two
    records of the example. *)
Theorem parse_actions_follows_grammar :
  (forall raw : str, parse_actions raw = ActionSpecParser_spec raw)
  /\ parse_actions
       (py "Build:system-run-symbolic:make build,Test:make test")
     = [mkAction (py "Build") (py "system-run-symbolic") (py "make build");
        mkAction (py "Test") (py "system-run-symbolic") (py "make test")].
Proof.
  split; [exact parse_actions_flat_map|].
  vm_compute. reflexivity.
Qed.

(** C8.  Writing the parsed records back in the three-field form
    [tooltip:icon:command], joining them with [,] and parsing again gives
    the same records, for every input string, well-formed or not. *)
Theorem parse_actions_idempotent (raw : str) :
  parse_actions (serialize_all (parse_actions raw)) = parse_actions raw.
Proof. apply parse_serialize, parse_actions_canonical. Qed.

Lemma last_after_sep (x : char) (p c : str) :
  free x c -> (c = [] <-> last (p ++ x :: c) 0 = x).
Proof.
  intros Hfree. destruct c as [|y c].
  - split; [intros _; apply last_last|reflexivity].
  - split; [discriminate|]. intros Hlast. exfalso. apply Hfree.
    assert (Hne : y :: c <> []) by discriminate.
    pose proof (app_removelast_last 0 Hne) as Hsplit.
    rewrite Hsplit in Hlast at 1.
    change (p ++ x :: removelast (y :: c) ++ [last (y :: c) 0])
      with (p ++ (x :: removelast (y :: c)) ++ [last (y :: c) 0])
      in Hlast.
    rewrite app_assoc, last_last in Hlast.
    rewrite <- Hlast at 1. rewrite Hsplit at 2.
    apply in_or_app. right. now left.
Qed.

Lemma parse_actions_origin (raw : str) (a : ActionSpec) :
  In a (parse_actions raw) ->
  exists spec, In spec (split (ord ",") raw)
               /\ In a (descriptor_spec (strip spec)).
Proof.
  rewrite parse_actions_flat_map. unfold ActionSpecParser_spec.
  rewrite in_flat_map. intros (d & Hd & Ha).
  apply in_map_iff in Hd. destruct Hd as (spec & <- & Hspec).
  now exists spec.
Qed.

(** C2, as the code has it.  Every record of the output comes from a
    descriptor that is not empty once trimmed and has two or three fields,
    and its command is the last of them; the command is empty exactly when
    the trimmed descriptor ends with [:].  Such a descriptor is kept, not
    dropped. *)
Theorem parse_actions_command_last_field (raw : str) (a : ActionSpec) :
  In a (parse_actions raw) ->
  exists spec d,
    In spec (split (ord ",") raw) /\ d = strip spec /\ d <> []
    /\ (split (ord ":") d = [tooltip a; icon a; command a]
        \/ (split (ord ":") d = [tooltip a; command a]
            /\ icon a = DEFAULT_ICON))
    /\ (command a = [] <-> last d 0 = ord ":").
Proof.
  intros Ha. apply parse_actions_origin in Ha.
  destruct Ha as (spec & Hspec & Ha).
  apply descriptor_fields in Ha. destruct Ha as [Hne Hsplit].
  exists spec, (strip spec). repeat split; try assumption.
  - intros Hc.
    pose proof (join_split (ord ":") (strip spec)) as Hjoin.
    destruct Hsplit as [Hs|[Hs _]]; rewrite Hs in Hjoin;
      rewrite <- Hjoin; simpl; rewrite Hc.
    + rewrite app_comm_cons, app_assoc. apply last_last.
    + apply last_last.
  - pose proof (join_split (ord ":") (strip spec)) as Hjoin.
    pose proof (split_all_free (ord ":") (strip spec)) as Hfree.
    rewrite Forall_forall in Hfree.
    destruct Hsplit as [Hs|[Hs _]]; rewrite Hs in Hjoin, Hfree;
      rewrite <- Hjoin; simpl.
    + rewrite app_comm_cons, app_assoc.
      apply last_after_sep. apply Hfree. simpl. tauto.
    + apply last_after_sep. apply Hfree. simpl. tauto.
Qed.

Lemma parse_actions_command_last_field_witness :
  exists spec d,
    In spec (split (ord ",") (py "Valid:run,A:")) /\ d = strip spec
    /\ d <> []
    /\ (split (ord ":") d = [py "A"; DEFAULT_ICON; []]
        \/ (split (ord ":") d = [py "A"; []]
            /\ DEFAULT_ICON = DEFAULT_ICON))
    /\ (@nil char = [] <-> last d 0 = ord ":").
Proof.
  apply (parse_actions_command_last_field (py "Valid:run,A:")
           (mkAction (py "A") DEFAULT_ICON [])).
  vm_compute. right. left. reflexivity.
Defined.

(** C2 fails on [--actions "A:"]: the descriptor has two fields, the second
    one empty, and the parser keeps it; the button built from it feeds a
    bare newline to the child when clicked. *)
Lemma empty_command_is_kept :
  parse_actions (py "A:") = [mkAction (py "A") DEFAULT_ICON []]
  /\ ~ (forall raw a, In a (parse_actions raw) -> command a <> [])
  /\ fed (terminal
            (click 0
               (@MainWindow_init example_host [] None None
                  (Some (parse_actions (py "A:"))) true None)))
     = [[NEWLINE]].
Proof.
  split; [vm_compute; reflexivity|]. split; [|vm_compute; reflexivity].
  intros H.
  apply (H (py "A:") (mkAction (py "A") DEFAULT_ICON [])); [|reflexivity].
  vm_compute. left. reflexivity.
Qed.

(** ** Windows and titles *)

Section Window.

Context {host : Host}.

Lemma spawned_MainWindow_init (cwd : str) (cmd env : option (list str))
    (actions : option (list ActionSpec)) (dark : bool)
    (palette : option (list RGBA)) :
  spawned (terminal (MainWindow_init cwd cmd env actions dark palette))
  = Some (mkSpawn
            (workingDirectory (resolve cwd cmd env actions dark palette))
            (cfg_command (resolve cwd cmd env actions dark palette))
            (environment (resolve cwd cmd env actions dark palette))).
Proof. reflexivity. Qed.

Lemma displayedTitle_update_title (w : MainWindow) (t : Terminal)
    (args : list Z) :
  displayedTitle (update_title w t args)
  = match window_title t with
    | Some ((_ :: _) as title) => title
    | _ => CONF_NAME
    end.
Proof.
  unfold displayedTitle, update_title. simpl.
  destruct (window_title t) as [[|c title]|]; reflexivity.
Qed.

(** C3, as the code has it.  The handler of [child-exited] is
    [update_title], the handler of [window-title-changed] too: when the
    child exits the displayed title becomes the title the terminal holds,
    and the application's name only if that title is unset or empty.  The
    exit code plays no part, and nothing else of the window changes. *)
Theorem child_exit_shows_terminal_title (w : MainWindow) (exitCode : Z) :
  displayedTitle (onChildExited exitCode w)
  = match window_title (terminal w) with
    | Some ((_ :: _) as title) => title
    | _ => CONF_NAME
    end
  /\ onChildExited exitCode w = onChildExited 0 w
  /\ terminal (onChildExited exitCode w) = terminal w.
Proof.
  split; [apply displayedTitle_update_title|]. split; reflexivity.
Qed.

(** C4.  A window built without any argument spawns [/bin/bash] alone, in
    the directory the process started in, with an empty environment, the
    dark colour scheme, no action button and the built-in colours; a run of
    the command line without any option builds that same window. *)
Theorem empty_configuration_defaults :
  resolve [] None None None true None
  = mkConfig os_getcwd [py "/bin/bash"] [] [] true []
  /\ MainWindow_init [] None None None true None
     = mkWindow
         (mkTerminal CONF_FG CONF_BG None
            (Some (mkSpawn os_getcwd [py "/bin/bash"] [])) [])
         (mkHeaderBar CONF_NAME []) FORCE_DARK
  /\ launched no_options
     = Returns (Some (MainWindow_init [] None None None true None)).
Proof. repeat split. Qed.

(** C10.  An empty working directory and an empty command sequence are
    treated as absent ones: with [cwd = ""] the child is spawned in the
    directory the process started in, and with [command = []] the window is
    the one built for [command = None], whose child runs [/bin/bash]. *)
Theorem empty_cwd_and_command_are_absent (cwd : str)
    (cmd env : option (list str)) (actions : option (list ActionSpec))
    (dark : bool) (palette : option (list RGBA)) :
  (exists argv envv,
     spawned (terminal (MainWindow_init [] cmd env actions dark palette))
     = Some (mkSpawn os_getcwd argv envv))
  /\ MainWindow_init cwd (Some []) env actions dark palette
     = MainWindow_init cwd None env actions dark palette
  /\ (exists dir envv,
        spawned
          (terminal (MainWindow_init cwd (Some []) env actions dark palette))
        = Some (mkSpawn dir [py "/bin/bash"] envv)).
Proof.
  split; [|split].
  - rewrite spawned_MainWindow_init. eauto.
  - reflexivity.
  - rewrite spawned_MainWindow_init. eauto.
Qed.

End Window.

(** C3 fails once the child has set a title: from a fresh window, the title
    change to ["build.sh"] is displayed, and it is still displayed after the
    child has exited with status 0. *)
Lemma title_survives_child_exit :
  let w0 := @MainWindow_init example_host [] None None None true None in
  let w1 := onTitleChanged (py "build.sh") w0 in
  let w2 := onChildExited 0 w1 in
  displayedTitle w0 = CONF_NAME
  /\ displayedTitle w1 = py "build.sh"
  /\ displayedTitle w2 = py "build.sh"
  /\ displayedTitle w2 <> CONF_NAME.
Proof.
  cbv zeta. repeat split; try (vm_compute; reflexivity).
  vm_compute. discriminate.
Qed.

(** ** The command line *)

Section CommandLine.

Context {host : Host}.

Lemma parse_env_nonempty (v : str) :
  v <> [] -> parse_env v = split (ord " ") v.
Proof. destruct v; [congruence|reflexivity]. Qed.

Lemma parse_env_tokens (v : str) :
  Forall (free (ord " ")) (parse_env v) /\ join (ord " ") (parse_env v) = v.
Proof.
  destruct v as [|c v]; [split; [constructor|reflexivity]|].
  rewrite parse_env_nonempty by discriminate.
  split; [apply split_all_free|apply join_split].
Qed.

Lemma parse_env_stray_space (v : str) :
  stray_space v -> In [] (parse_env v).
Proof.
  intros [[r ->]|[[r ->]|(a & b & ->)]].
  - left. reflexivity.
  - rewrite parse_env_nonempty by (now destruct r).
    rewrite split_at_sep. apply in_or_app. right. now left.
  - rewrite parse_env_nonempty by (now destruct a).
    rewrite split_at_sep. apply in_or_app. right.
    simpl. now left.
Qed.

(** What [do_command_line] leaves behind when the command tokenizes. *)
Lemma do_command_line_main (options : Options) (cmd : list str) :
  command_tokens options = Returns cmd ->
  do_command_line main_app options
  = Returns
      (0%Z,
       do_activate
         (mkApp
            (match opt_cwd options with Some s => s | None => [] end)
            cmd
            (match opt_env options with
             | Some s => parse_env s
             | None => []
             end)
            (match opt_actions options with
             | Some raw => parse_actions raw
             | None => []
             end)
            (if opt_light_theme options then false else true)
            (match opt_palette options with
             | Some value => parse_palette value
             | None => []
             end)
            None)).
Proof. unfold do_command_line. now intros ->. Qed.

Lemma Terminal_init_palette (value : str) :
  (foreground (Terminal_init (Some (parse_palette value))),
   background (Terminal_init (Some (parse_palette value))))
  = match split (ord " ") value with
    | t0 :: t1 :: _ =>
        (snd (RGBA_parse RGBA_new t0), snd (RGBA_parse RGBA_new t1))
    | _ => (CONF_FG, CONF_BG)
    end.
Proof.
  unfold parse_palette.
  destruct (split (ord " ") value) as [|t0 [|t1 rest]]; reflexivity.
Qed.

Lemma join_nil (sep : char) (tokens : list str) :
  join sep tokens = [] -> tokens = [] \/ tokens = [[]].
Proof.
  destruct tokens as [|x [|y l]]; simpl; intros H; auto.
  - right. now subst.
  - now destruct x.
Qed.

(** C6.  The value of [--env] is cut at every single space and at nothing
    else: the tokens hold no space and, put back together with one space
    between neighbours, give the value; a non-empty value gives
    [value.split(" ")]; any sequence of space-free tokens, the lone empty
    token apart, comes back from its join.  Quotes are characters like any
    other.  ["A=1 B=2"] gives [["A=1", "B=2"]], and the tokens become the
    application's environment. *)
Theorem env_single_space_split :
  (forall value : str,
      Forall (free (ord " ")) (parse_env value)
      /\ join (ord " ") (parse_env value) = value)
  /\ (forall value : str,
         value <> [] -> parse_env value = split (ord " ") value)
  /\ (forall tokens : list str,
         Forall (free (ord " ")) tokens -> tokens <> [[]] ->
         parse_env (join (ord " ") tokens) = tokens)
  /\ parse_env (py "A=1 B=2") = [py "A=1"; py "B=2"]
  /\ parse_env (py "A='x y' B=2") = [py "A='x"; py "y'"; py "B=2"]
  /\ (forall (options : Options) (value : str) (cmd : list str),
         opt_env options = Some value ->
         command_tokens options = Returns cmd ->
         exists app,
           do_command_line main_app options = Returns (0%Z, app)
           /\ app_env app = parse_env value).
Proof.
  split; [exact parse_env_tokens|].
  split; [exact parse_env_nonempty|].
  split; [|split; [reflexivity|split; [reflexivity|]]].
  - intros tokens Hfree Hne.
    destruct (join (ord " ") tokens) as [|c v] eqn:Hj.
    + apply join_nil in Hj. destruct Hj as [-> | ->]; [reflexivity|].
      congruence.
    + rewrite parse_env_nonempty by discriminate. rewrite <- Hj.
      apply split_join; [|assumption]. intros ->. discriminate.
  - intros options value cmd Henv Hcmd.
    rewrite (do_command_line_main options cmd Hcmd), Henv.
    eexists. split; reflexivity.
Qed.

(** C9.  The [--env] branch gives the empty sequence for the empty value
    and [value.split(" ")] for any other; a value with a space at its
    start, at its end, or two spaces in a row therefore yields an empty
    token, and the tokens are the environment of the spawn call as they
    are. *)
Theorem env_tokens_reach_spawn (options : Options) (v : str)
    (cmd : list str) :
  opt_env options = Some v ->
  command_tokens options = Returns cmd ->
  (v = [] -> parse_env v = [])
  /\ (v <> [] -> parse_env v = split (ord " ") v)
  /\ (stray_space v -> In [] (parse_env v))
  /\ exists app w dir argv,
       do_command_line main_app options = Returns (0%Z, app)
       /\ app_env app = parse_env v
       /\ active_window app = Some w
       /\ spawned (terminal w) = Some (mkSpawn dir argv (parse_env v)).
Proof.
  intros Henv Hcmd.
  split; [now intros ->|].
  split; [apply parse_env_nonempty|].
  split; [apply parse_env_stray_space|].
  rewrite (do_command_line_main options cmd Hcmd), Henv.
  unfold do_activate. simpl active_window. cbv iota.
  do 4 eexists. split; [reflexivity|].
  split; [reflexivity|]. split; [reflexivity|].
  rewrite spawned_MainWindow_init. reflexivity.
Qed.

(** C5.  With fewer than two space-separated tokens in the value of
    [--palette] the palette stays empty and the terminal takes the
    built-in colours; with two or more, the first token is parsed into the
    foreground and the second into the background, so ["#ffffff #000000"]
    gives white on black wherever those two literals parse to white and to
    black. *)
Theorem palette_tokens_to_colours (options : Options) (value : str)
    (cmd : list str) :
  opt_palette options = Some value ->
  command_tokens options = Returns cmd ->
  exists app w,
    do_command_line main_app options = Returns (0%Z, app)
    /\ active_window app = Some w
    /\ ((List.length (split (ord " ") value) < 2)%nat ->
        app_palette app = []
        /\ foreground (terminal w) = CONF_FG
        /\ background (terminal w) = CONF_BG)
    /\ (forall t0 t1 rest,
           split (ord " ") value = t0 :: t1 :: rest ->
           app_palette app
           = [snd (RGBA_parse RGBA_new t0); snd (RGBA_parse RGBA_new t1)]
           /\ foreground (terminal w) = snd (RGBA_parse RGBA_new t0)
           /\ background (terminal w) = snd (RGBA_parse RGBA_new t1))
    /\ (value = py "#ffffff #000000" ->
        RGBA_parse RGBA_new (py "#ffffff") = (true, white) ->
        RGBA_parse RGBA_new (py "#000000") = (true, black) ->
        foreground (terminal w) = white /\ background (terminal w) = black).
Proof.
  intros Hpal Hcmd.
  rewrite (do_command_line_main options cmd Hcmd), Hpal.
  unfold do_activate. simpl active_window. cbv iota.
  do 2 eexists. split; [reflexivity|]. split; [reflexivity|].
  simpl app_palette. simpl terminal.
  pose proof (Terminal_init_palette value) as Hcol.
  split; [|split].
  - intros Hlen. unfold parse_palette.
    destruct (split (ord " ") value) as [|t0 [|t1 rest]];
      simpl in Hlen; try lia; repeat split.
  - intros t0 t1 rest Hsplit. unfold parse_palette. rewrite Hsplit.
    repeat split.
  - intros Hv Hw Hb. subst value.
    change (split (ord " ") (py "#ffffff #000000"))
      with [py "#ffffff"; py "#000000"] in Hcol.
    cbv beta iota in Hcol. rewrite Hw, Hb in Hcol.
    now inversion Hcol.
Qed.

(** C7.  A colour token that the parser rejects does not stop the command
    line: [do_command_line] returns status 0 and the window is built.  The
    flag returned by [parse] is not read: with two tokens or more each of
    the two colours is what the call left in its fresh colour object,
    accepted or not, and with fewer the built-in colours are used. *)
Theorem rejected_colour_does_not_raise (options : Options) (value : str)
    (cmd : list str) (tok : str) :
  opt_palette options = Some value ->
  command_tokens options = Returns cmd ->
  In tok (split (ord " ") value) ->
  fst (RGBA_parse RGBA_new tok) = false ->
  exists app w,
    do_command_line main_app options = Returns (0%Z, app)
    /\ active_window app = Some w
    /\ (foreground (terminal w), background (terminal w))
       = match split (ord " ") value with
         | t0 :: t1 :: _ =>
             (snd (RGBA_parse RGBA_new t0), snd (RGBA_parse RGBA_new t1))
         | _ => (CONF_FG, CONF_BG)
         end.
Proof.
  intros Hpal Hcmd _ _.
  rewrite (do_command_line_main options cmd Hcmd), Hpal.
  unfold do_activate. simpl active_window. cbv iota.
  do 2 eexists. split; [reflexivity|]. split; [reflexivity|].
  simpl terminal. apply Terminal_init_palette.
Qed.

End CommandLine.

(** ** The theorems at work on [example_host] *)

Lemma env_single_space_split_witness :
  Forall (free (ord " ")) [py "A=1"; []; py "B=2"]
  /\ [py "A=1"; []; py "B=2"] <> [[]]
  /\ parse_env (py "A=1  B=2") = [py "A=1"; []; py "B=2"].
Proof.
  assert (Hfree : Forall (free (ord " ")) [py "A=1"; []; py "B=2"])
    by (repeat constructor; absent).
  assert (Hne : [py "A=1"; []; py "B=2"] <> [[]]) by discriminate.
  split; [exact Hfree|]. split; [exact Hne|].
  exact (proj1 (proj2 (proj2 (@env_single_space_split example_host)))
           [py "A=1"; []; py "B=2"] Hfree Hne).
Defined.

Lemma env_tokens_reach_spawn_witness :
  let options := mkOptions None None (Some (py " A=1")) None false None in
  opt_env options = Some (py " A=1")
  /\ @command_tokens example_host options = Returns []
  /\ stray_space (py " A=1")
  /\ In [] (parse_env (py " A=1")).
Proof.
  cbv zeta.
  assert (Hstray : stray_space (py " A=1"))
    by (left; exists (py "A=1"); reflexivity).
  split; [reflexivity|]. split; [reflexivity|]. split; [exact Hstray|].
  exact (proj1 (proj2 (proj2
           (@env_tokens_reach_spawn example_host
              (mkOptions None None (Some (py " A=1")) None false None)
              (py " A=1") [] eq_refl eq_refl))) Hstray).
Defined.

Lemma palette_tokens_to_colours_witness :
  let options :=
    mkOptions None None None None false (Some (py "#ffffff #000000")) in
  opt_palette options = Some (py "#ffffff #000000")
  /\ @command_tokens example_host options = Returns []
  /\ exists app w,
       @do_command_line example_host main_app options = Returns (0%Z, app)
       /\ active_window app = Some w
       /\ foreground (terminal w) = white
       /\ background (terminal w) = black.
Proof.
  cbv zeta. split; [reflexivity|]. split; [reflexivity|].
  destruct (@palette_tokens_to_colours example_host
              (mkOptions None None None None false
                 (Some (py "#ffffff #000000")))
              (py "#ffffff #000000") [] eq_refl eq_refl)
    as (app & w & Hrun & Hwin & _ & _ & Hex).
  exists app, w. split; [exact Hrun|]. split; [exact Hwin|].
  apply Hex; reflexivity.
Defined.

Lemma rejected_colour_does_not_raise_witness :
  let options :=
    mkOptions None None None None false (Some (py "badtoken #000000")) in
  opt_palette options = Some (py "badtoken #000000")
  /\ @command_tokens example_host options = Returns []
  /\ In (py "badtoken") (split (ord " ") (py "badtoken #000000"))
  /\ fst (@RGBA_parse example_host (@RGBA_new example_host) (py "badtoken"))
     = false
  /\ exists app w,
       @do_command_line example_host main_app options = Returns (0%Z, app)
       /\ active_window app = Some w
       /\ (foreground (terminal w), background (terminal w))
          = (mkRGBA 1 1 1 1, black).
Proof.
  cbv zeta.
  assert (Hin : In (py "badtoken") (split (ord " ") (py "badtoken #000000")))
    by (left; reflexivity).
  split; [reflexivity|]. split; [reflexivity|]. split; [exact Hin|].
  split; [reflexivity|].
  exact (@rejected_colour_does_not_raise example_host
           (mkOptions None None None None false
              (Some (py "badtoken #000000")))
           (py "badtoken #000000") [] (py "badtoken")
           eq_refl eq_refl Hin eq_refl).
Defined.

(** ** Font selection *)

Lemma str_eqb_eq (a b : str) : str_eqb a b = true <-> a = b.
Proof.
  revert b. induction a as [|x a IH]; intros [|y b]; simpl;
    try (split; [discriminate|discriminate]); [tauto|].
  rewrite andb_true_iff, N.eqb_eq, IH.
  split; [intros [-> ->]; reflexivity|intros H; inversion H; auto].
Qed.

Lemma contains_In (x : str) (l : list str) : contains x l = true <-> In x l.
Proof.
  unfold contains. rewrite existsb_exists. split.
  - intros (y & Hy & Heq). apply str_eqb_eq in Heq. now subst.
  - intros Hx. exists x. split; [assumption|now apply str_eqb_eq].
Qed.

Lemma contains_false (x : str) (l : list str) :
  contains x l = false <-> ~ In x l.
Proof.
  rewrite <- contains_In. destruct (contains x l); split; congruence.
Qed.

Lemma first_candidate_Some (cs av : list str) (c : str) :
  first_candidate cs av = Some c -> In c cs /\ In c av.
Proof.
  induction cs as [|x cs IH]; simpl; [discriminate|].
  destruct (contains x av) eqn:Hx.
  - intros [= <-]. apply contains_In in Hx. auto.
  - intros H. destruct (IH H). auto.
Qed.

Lemma first_candidate_None (cs av : list str) :
  first_candidate cs av = None <-> (forall c, In c cs -> ~ In c av).
Proof.
  induction cs as [|x cs IH]; simpl; [split; [intros _ c []|reflexivity]|].
  destruct (contains x av) eqn:Hx.
  - split; [discriminate|]. intros H. exfalso.
    apply (H x); [now left|now apply contains_In].
  - rewrite IH. apply contains_false in Hx. split.
    + intros H c [<-|Hc]; auto.
    + intros H c Hc. apply H. now right.
Qed.

Lemma first_candidate_at (pre post av : list str) (c : str) :
  In c av -> (forall x, In x pre -> ~ In x av) ->
  first_candidate (pre ++ c :: post) av = Some c.
Proof.
  intros Hc. induction pre as [|x pre IH]; intros Hpre; simpl.
  - apply contains_In in Hc. now rewrite Hc.
  - assert (Hx : contains x av = false)
      by (apply contains_false, Hpre; now left).
    rewrite Hx. apply IH. intros y Hy. apply Hpre. now right.
Qed.

Lemma first_candidate_same_set (cs a1 a2 : list str) :
  (forall x, In x a1 <-> In x a2) ->
  first_candidate cs a1 = first_candidate cs a2.
Proof.
  intros Hset. induction cs as [|x cs IH]; simpl; [reflexivity|].
  assert (Hx : contains x a1 = contains x a2).
  { destruct (contains x a2) eqn:H2.
    - apply contains_In. apply Hset. now apply contains_In.
    - apply contains_false. rewrite Hset. now apply contains_false. }
  now rewrite Hx, IH.
Qed.

(** X1.  When any family is available, the family chosen is one of the
    available ones. *)
Theorem select_font_family_available (available : list str) :
  available <> [] -> In (select_font_family available) available.
Proof.
  intros Hne. unfold select_font_family.
  destruct (first_candidate _ available) as [c|] eqn:Hc.
  - now apply first_candidate_Some in Hc.
  - destruct available; [congruence|now left].
Qed.

Lemma select_font_family_available_witness :
  [py "Fira Code"; py "Noto Mono"] <> []
  /\ In (select_font_family [py "Fira Code"; py "Noto Mono"])
       [py "Fira Code"; py "Noto Mono"].
Proof.
  assert (Hne : [py "Fira Code"; py "Noto Mono"] <> []) by discriminate.
  split; [exact Hne|].
  exact (select_font_family_available [py "Fira Code"; py "Noto Mono"] Hne).
Defined.

(** X2.  The preference order decides: an available family of the list
    [CONF_FONT_FAMILY], [CONF_FONT_FALLBACKS] is chosen as soon as none of
    those before it in the list is available. *)
Theorem select_font_family_first_preferred (available pre post : list str)
    (c : str) :
  CONF_FONT_FAMILY :: CONF_FONT_FALLBACKS = pre ++ c :: post ->
  In c available ->
  (forall x, In x pre -> ~ In x available) ->
  select_font_family available = c.
Proof.
  intros Hsplit Hc Hpre. unfold select_font_family.
  rewrite Hsplit. now rewrite first_candidate_at.
Qed.

Lemma select_font_family_first_preferred_witness :
  select_font_family [py "Monospace"; py "Cascadia Mono"; py "Noto Mono"]
  = py "Cascadia Mono".
Proof.
  apply (select_font_family_first_preferred
           [py "Monospace"; py "Cascadia Mono"; py "Noto Mono"]
           [py "DejaVu Sans Mono"; py "Liberation Mono"]
           [py "Fira Code"; py "Monospace"] (py "Cascadia Mono")).
  - reflexivity.
  - right. left. reflexivity.
  - intros x [<-|[<-|[]]]; absent.
Defined.

(** X3.  When none of the preferred families is available the first
    available family is chosen, and [CONF_FONT_FAMILY] when there is
    none at all. *)
Theorem select_font_family_fallback (available : list str) :
  (forall c, In c (CONF_FONT_FAMILY :: CONF_FONT_FALLBACKS) ->
             ~ In c available) ->
  select_font_family available = hd CONF_FONT_FAMILY available.
Proof.
  intros Hnone. unfold select_font_family.
  apply first_candidate_None in Hnone. rewrite Hnone.
  now destruct available.
Qed.

Lemma select_font_family_fallback_witness :
  select_font_family [py "Noto Mono"; py "Courier"] = py "Noto Mono".
Proof.
  apply (select_font_family_fallback [py "Noto Mono"; py "Courier"]).
  intros c [<-|[<-|[<-|[<-|[<-|[]]]]]]; absent.
Defined.

(** X4.  With a preferred family available, the choice depends on which
    families are available only: their order and repetitions in the list
    play no part. *)
Theorem select_font_family_order_blind (a1 a2 : list str) :
  (forall x, In x a1 <-> In x a2) ->
  (exists c, In c (CONF_FONT_FAMILY :: CONF_FONT_FALLBACKS) /\ In c a1) ->
  select_font_family a1 = select_font_family a2.
Proof.
  intros Hset (c & Hpref & Hc). unfold select_font_family.
  rewrite <- (first_candidate_same_set _ a1 a2 Hset).
  destruct (first_candidate _ a1) eqn:Hfirst; [reflexivity|].
  exfalso. rewrite first_candidate_None in Hfirst.
  exact (Hfirst c Hpref Hc).
Qed.

Lemma select_font_family_order_blind_witness :
  select_font_family [py "Monospace"; py "Fira Code"]
  = select_font_family [py "Fira Code"; py "Monospace"; py "Fira Code"].
Proof.
  apply select_font_family_order_blind.
  - intros x. simpl. tauto.
  - exists (py "Fira Code"). split; [|right; left; reflexivity].
    right. right. right. left. reflexivity.
Defined.

(** ** Buttons, events and the library wrapper *)

Section Sessions.

Context {host : Host}.

Lemma build_actions_map (actions : list ActionSpec) (h : HeaderBar) :
  build_actions actions h
  = mkHeaderBar (title_label h) (actions_box h ++ map button_of actions).
Proof.
  unfold build_actions. revert h.
  induction actions as [|a actions IH]; intros h; simpl.
  - rewrite app_nil_r. now destruct h.
  - rewrite IH. simpl. now rewrite <- app_assoc.
Qed.

Lemma headerbar_MainWindow_init (cwd : str) (cmd env : option (list str))
    (actions : option (list ActionSpec)) (dark : bool)
    (palette : option (list RGBA)) :
  headerbar (MainWindow_init cwd cmd env actions dark palette)
  = mkHeaderBar CONF_NAME (map button_of (list_or actions)).
Proof.
  unfold MainWindow_init. simpl.
  destruct actions as [[|a l]|]; try reflexivity.
  apply build_actions_map.
Qed.

Lemma fed_MainWindow_init (cwd : str) (cmd env : option (list str))
    (actions : option (list ActionSpec)) (dark : bool)
    (palette : option (list RGBA)) :
  fed (terminal (MainWindow_init cwd cmd env actions dark palette)) = [].
Proof.
  unfold MainWindow_init, Terminal_init. simpl.
  destruct palette as [[|p0 [|p1 l]]|]; reflexivity.
Qed.

Lemma window_title_MainWindow_init (cwd : str)
    (cmd env : option (list str)) (actions : option (list ActionSpec))
    (dark : bool) (palette : option (list RGBA)) :
  window_title (terminal (MainWindow_init cwd cmd env actions dark palette))
  = None.
Proof.
  unfold MainWindow_init, Terminal_init. simpl.
  destruct palette as [[|p0 [|p1 l]]|]; reflexivity.
Qed.

Lemma click_nth (w : MainWindow) (n : nat) (b : Button) :
  nth_error (actions_box (headerbar w)) n = Some b ->
  click n w
  = mkWindow (run_command (btn_command b) (terminal w)) (headerbar w)
      (color_scheme w).
Proof. unfold click. now intros ->. Qed.

(** X5.  In a window built with a list of actions, a click on the [n]-th
    button feeds the command of the [n]-th action and a newline to the
    child, and nothing else: the spawn call and the header bar stay as they
    were. *)
Theorem click_feeds_nth_command (cwd : str) (cmd env : option (list str))
    (actions : list ActionSpec) (dark : bool)
    (palette : option (list RGBA)) (n : nat) (a : ActionSpec) :
  nth_error actions n = Some a ->
  let w := MainWindow_init cwd cmd env (Some actions) dark palette in
  fed (terminal (click n w)) = [command a ++ [NEWLINE]]
  /\ spawned (terminal (click n w)) = spawned (terminal w)
  /\ headerbar (click n w) = headerbar w.
Proof.
  intros Hn w.
  assert (Hb : nth_error (actions_box (headerbar w)) n = Some (button_of a)).
  { unfold w. rewrite headerbar_MainWindow_init. simpl.
    now rewrite nth_error_map, Hn. }
  rewrite (click_nth w n _ Hb).
  pose proof (fed_MainWindow_init cwd cmd env (Some actions) dark palette)
    as Hfed.
  fold w in Hfed.
  split; [|split; reflexivity].
  change (fed (terminal w) ++ [command a ++ [NEWLINE]]
          = [command a ++ [NEWLINE]]).
  now rewrite Hfed.
Qed.

Lemma window_title_deliver (w : MainWindow) (e : event) :
  window_title (terminal (deliver w e))
  = match e with
    | TitleChanged newTitle => Some newTitle
    | ChildExited _ => window_title (terminal w)
    end.
Proof. destruct e; reflexivity. Qed.

Lemma displayedTitle_deliver (w : MainWindow) (e : event) :
  displayedTitle (deliver w e)
  = shown (window_title (terminal (deliver w e))).
Proof.
  destruct e; simpl; unfold onTitleChanged, onChildExited, emit;
    rewrite displayedTitle_update_title; reflexivity.
Qed.

Lemma window_title_run (events : list event) (w : MainWindow) :
  window_title (terminal (run events w))
  = last_title events (window_title (terminal w)).
Proof.
  unfold run, last_title. revert w.
  induction events as [|e events IH]; intros w; simpl; [reflexivity|].
  now rewrite IH, window_title_deliver.
Qed.

Lemma displayedTitle_run (events : list event) (w : MainWindow) :
  displayedTitle w = shown (window_title (terminal w)) ->
  displayedTitle (run events w)
  = shown (window_title (terminal (run events w))).
Proof.
  unfold run. revert w.
  induction events as [|e events IH]; intros w Hw; simpl; [exact Hw|].
  apply IH, displayedTitle_deliver.
Qed.

(** X6.  From a fresh window, after any sequence of title changes and
    child exits, the displayed title is the title of the last title change
    when that title is not empty, and the application's name otherwise:
    child exits and their codes never change it. *)
Theorem title_follows_last_change (events : list event) (cwd : str)
    (cmd env : option (list str)) (actions : option (list ActionSpec))
    (dark : bool) (palette : option (list RGBA)) :
  displayedTitle
    (run events (MainWindow_init cwd cmd env actions dark palette))
  = shown (last_title events None).
Proof.
  rewrite displayedTitle_run, window_title_run.
  - now rewrite window_title_MainWindow_init.
  - unfold displayedTitle.
    now rewrite headerbar_MainWindow_init, window_title_MainWindow_init.
Qed.

(** X7.  Title changes and child exits touch the title only: the spawn
    call, the texts fed to the child, the colours, the buttons and the
    colour scheme of the window are after any sequence of them what they
    were before. *)
Theorem events_change_title_only (events : list event) (w : MainWindow) :
  spawned (terminal (run events w)) = spawned (terminal w)
  /\ fed (terminal (run events w)) = fed (terminal w)
  /\ foreground (terminal (run events w)) = foreground (terminal w)
  /\ background (terminal (run events w)) = background (terminal w)
  /\ actions_box (headerbar (run events w)) = actions_box (headerbar w)
  /\ color_scheme (run events w) = color_scheme w.
Proof.
  unfold run. revert w.
  induction events as [|e events IH]; intros w; simpl;
    [repeat split|].
  destruct (IH (deliver w e)) as (H1 & H2 & H3 & H4 & H5 & H6).
  rewrite H1, H2, H3, H4, H5, H6. destruct e; repeat split.
Qed.

(** X8.  The library wrapper builds the window that [MainWindow] builds
    from the same arguments: replacing an absent command, environment,
    action list or palette by an empty list changes nothing. *)
Theorem library_window_is_main_window (cwd : str)
    (cmd env : option (list str)) (actions : option (list ActionSpec))
    (dark : bool) (palette : option (list RGBA)) :
  lib_on_activate (EasyTermLib_init cwd cmd env actions dark palette)
  = MainWindow_init cwd cmd env actions dark palette.
Proof.
  unfold lib_on_activate, EasyTermLib_init, MainWindow_init, resolve.
  simpl.
  destruct cmd as [[|c cmd]|], env as [env|], actions as [actions|],
    palette as [palette|]; reflexivity.
Qed.

(** X9.  [do_command_line] raises exactly when the tokenizer of
    [--command] raises, with the same exception and whatever the other
    options hold; when it returns, the status is 0. *)
Theorem do_command_line_raises_iff (self : EasyTerm) (options : Options) :
  (forall e, do_command_line self options = Raises e
             <-> command_tokens options = Raises e)
  /\ (forall rc app, do_command_line self options = Returns (rc, app) ->
                     rc = 0%Z).
Proof.
  unfold do_command_line.
  destruct (command_tokens options) as [cmd|e0]; simpl; split.
  - intros e. split; discriminate.
  - intros rc app [= <- _]. reflexivity.
  - intros e. split; intros [= ->]; reflexivity.
  - intros rc app. discriminate.
Qed.

(** X10.  A command line that arrives while a window is active stores the
    new settings in the application and returns 0, but the active window,
    with its child and its buttons, is left as it is. *)
Theorem second_command_line_keeps_window (self : EasyTerm)
    (options : Options) (cmd : list str) (w : MainWindow) :
  active_window self = Some w ->
  command_tokens options = Returns cmd ->
  exists app,
    do_command_line self options = Returns (0%Z, app)
    /\ active_window app = Some w
    /\ app_command app = cmd
    /\ app_env app
       = match opt_env options with Some s => parse_env s | None => [] end
    /\ app_actions app
       = match opt_actions options with
         | Some raw => parse_actions raw
         | None => []
         end.
Proof.
  intros Hw Hcmd. unfold do_command_line. rewrite Hcmd. simpl.
  unfold do_activate. simpl. rewrite Hw.
  eexists. split; [reflexivity|]. repeat split.
Qed.

(** X11.  The window a command line launches: the child is spawned in the
    directory of [--cwd], or the starting directory when that is absent or
    empty, with the tokens of [--command], or [/bin/bash] when there are
    none, and the tokens of [--env]; the header bar shows the
    application's name and one button per parsed action, in order; the
    colour scheme is forced dark unless [--light-theme] is given; nothing
    has been fed to the child. *)
Theorem launched_window (options : Options) (cmd : list str) :
  command_tokens options = Returns cmd ->
  exists w,
    launched options = Returns (Some w)
    /\ spawned (terminal w)
       = Some
           (mkSpawn
              (match opt_cwd options with
               | Some ((_ :: _) as d) => d
               | _ => os_getcwd
               end)
              (match cmd with [] => [py "/bin/bash"] | _ :: _ => cmd end)
              (match opt_env options with
               | Some v => parse_env v
               | None => []
               end))
    /\ headerbar w
       = mkHeaderBar CONF_NAME
           (map button_of
              (match opt_actions options with
               | Some raw => parse_actions raw
               | None => []
               end))
    /\ color_scheme w
       = (if opt_light_theme options then DEFAULT else FORCE_DARK)
    /\ fed (terminal w) = []
    /\ window_title (terminal w) = None.
Proof.
  intros Hcmd. unfold launched.
  rewrite (do_command_line_main options cmd Hcmd). simpl.
  eexists. split; [reflexivity|].
  rewrite headerbar_MainWindow_init, spawned_MainWindow_init,
    fed_MainWindow_init, window_title_MainWindow_init.
  split; [|split; [reflexivity|split; [|split; reflexivity]]].
  - unfold resolve. simpl.
    destruct (opt_cwd options) as [[|c d]|], cmd; reflexivity.
  - unfold MainWindow_init. simpl.
    now destruct (opt_light_theme options).
Qed.

End Sessions.

Lemma click_feeds_nth_command_witness :
  let actions := parse_actions (py "Build:make,Test:make test") in
  let w := @MainWindow_init example_host [] None None (Some actions) true
             None in
  nth_error actions 1 = Some (mkAction (py "Test") DEFAULT_ICON
                                (py "make test"))
  /\ fed (terminal (click 1 w)) = [py "make test" ++ [NEWLINE]].
Proof.
  cbv zeta.
  assert (Hn : nth_error (parse_actions (py "Build:make,Test:make test")) 1
               = Some (mkAction (py "Test") DEFAULT_ICON (py "make test")))
    by reflexivity.
  split; [exact Hn|].
  exact (proj1 (@click_feeds_nth_command example_host [] None None
                  (parse_actions (py "Build:make,Test:make test")) true
                  None 1%nat _ Hn)).
Defined.

Lemma do_command_line_raises_iff_witness :
  let options :=
    mkOptions None (Some (py "sh -c 'unbalanced")) None None false
      (Some (py "#fff #000")) in
  @command_tokens example_host options = Raises ValueError
  /\ @do_command_line example_host main_app options = Raises ValueError.
Proof.
  cbv zeta.
  assert (Hc : @command_tokens example_host
                 (mkOptions None (Some (py "sh -c 'unbalanced")) None None
                    false (Some (py "#fff #000")))
               = Raises ValueError) by reflexivity.
  split; [exact Hc|].
  exact (proj2 (proj1 (@do_command_line_raises_iff example_host main_app
                         (mkOptions None (Some (py "sh -c 'unbalanced"))
                            None None false (Some (py "#fff #000"))))
                  ValueError) Hc).
Defined.

Lemma second_command_line_keeps_window_witness :
  let first := mkOptions None None None None false None in
  let second :=
    mkOptions (Some (py "/tmp")) (Some (py "htop")) (Some (py "A=1")) None
      true None in
  exists app0 w app,
    @do_command_line example_host main_app first = Returns (0%Z, app0)
    /\ active_window app0 = Some w
    /\ @command_tokens example_host second = Returns [py "htop"]
    /\ @do_command_line example_host app0 second = Returns (0%Z, app)
    /\ active_window app = Some w
    /\ app_command app = [py "htop"].
Proof.
  cbv zeta.
  eexists. eexists.
  destruct (@second_command_line_keeps_window example_host
              (@do_activate example_host
                 (mkApp [] [] [] [] true [] None))
              (mkOptions (Some (py "/tmp")) (Some (py "htop"))
                 (Some (py "A=1")) None true None)
              [py "htop"] _ eq_refl eq_refl)
    as (app & Hrun & Hwin & Hcmd & _).
  exists app.
  split; [reflexivity|]. split; [reflexivity|]. split; [reflexivity|].
  split; [exact Hrun|]. split; [exact Hwin|exact Hcmd].
Defined.

Lemma launched_window_witness :
  let options :=
    mkOptions (Some []) (Some (py "  ")) (Some (py "A=1 B=2"))
      (Some (py "Build:make")) true None in
  @command_tokens example_host options = Returns []
  /\ exists w,
       @launched example_host options = Returns (Some w)
       /\ spawned (terminal w)
          = Some (mkSpawn (py "/home/user") [py "/bin/bash"]
                    [py "A=1"; py "B=2"])
       /\ headerbar w
          = mkHeaderBar CONF_NAME
              [mkButton (py "Build") DEFAULT_ICON (py "make")]
       /\ color_scheme w = DEFAULT.
Proof.
  cbv zeta. split; [reflexivity|].
  destruct (@launched_window example_host
              (mkOptions (Some []) (Some (py "  ")) (Some (py "A=1 B=2"))
                 (Some (py "Build:make")) true None)
              [] eq_refl)
    as (w & Hrun & Hspawn & Hbar & Hscheme & _).
  exists w. split; [exact Hrun|]. split; [exact Hspawn|].
  split; [exact Hbar|exact Hscheme].
Defined.

(** ** More on splitting and trimming *)

Lemma split_length (sep : char) (s : str) :
  List.length (split sep s) = S (count_occ N.eq_dec s sep).
Proof.
  induction s as [|c s IH]; [reflexivity|].
  simpl split. destruct (N.eqb_spec c sep) as [->|Hne].
  - rewrite count_occ_cons_eq by reflexivity.
    simpl List.length. now rewrite IH.
  - rewrite count_occ_cons_neq by assumption.
    destruct (split sep s); [discriminate IH|exact IH].
Qed.

Lemma split_prepend (sep : char) (p s : str) :
  free sep p ->
  split sep (p ++ s)
  = match split sep s with
    | w :: ws => (p ++ w) :: ws
    | [] => [p]
    end.
Proof.
  unfold free. induction p as [|c p IH]; intros Hp; simpl.
  - pose proof (split_not_nil sep s). now destruct (split sep s).
  - destruct (N.eqb_spec c sep) as [->|Hne].
    + exfalso. apply Hp. now left.
    + rewrite IH by (intros Hin; apply Hp; now right).
      now destruct (split sep s).
Qed.

Lemma split_append (sep : char) (s q : str) :
  free sep q -> split sep (s ++ q) = app_last (split sep s) q.
Proof.
  intros Hq. induction s as [|c s IH]; simpl.
  - now apply split_free.
  - pose proof (split_not_nil sep s) as Hnn.
    destruct (N.eqb_spec c sep) as [->|Hne]; rewrite IH.
    + now destruct (split sep s).
    + destruct (split sep s) as [|w [|w' ws]]; [congruence| |];
        reflexivity.
Qed.

Lemma blank_free (sep : char) (s : str) :
  isspace sep = false -> blank s -> free sep s.
Proof.
  unfold blank, free. intros Hsep Hs Hin.
  rewrite Forall_forall in Hs. apply Hs in Hin. congruence.
Qed.

Lemma lstrip_blank_app (p s : str) : blank p -> lstrip (p ++ s) = lstrip s.
Proof.
  induction 1 as [|c p Hc _ IH]; simpl; [reflexivity|].
  now rewrite Hc.
Qed.

Lemma lstrip_blank (q : str) : blank q -> lstrip q = [].
Proof.
  intros Hq. rewrite <- (app_nil_r q). now rewrite lstrip_blank_app.
Qed.

Lemma rstrip_app_blank (s q : str) : blank q -> rstrip (s ++ q) = rstrip s.
Proof.
  intros Hq. unfold rstrip. rewrite rev_app_distr.
  rewrite lstrip_blank_app; [reflexivity|].
  unfold blank. now apply Forall_rev.
Qed.

Lemma lstrip_app_cases (w q : str) :
  lstrip (w ++ q) = lstrip w ++ q
  \/ (lstrip w = [] /\ lstrip (w ++ q) = lstrip q).
Proof.
  induction w as [|c w IH]; simpl; [now right|].
  destruct (isspace c); [exact IH|now left].
Qed.

Lemma strip_blank_app (p s : str) : blank p -> strip (p ++ s) = strip s.
Proof. intros Hp. unfold strip. now rewrite lstrip_blank_app. Qed.

Lemma strip_app_blank (s q : str) : blank q -> strip (s ++ q) = strip s.
Proof.
  intros Hq. unfold strip.
  destruct (lstrip_app_cases s q) as [->|[Hs ->]].
  - now apply rstrip_app_blank.
  - now rewrite Hs, lstrip_blank.
Qed.

Lemma map_strip_app_last (l : list str) (q : str) :
  l <> [] -> blank q -> map strip (app_last l q) = map strip l.
Proof.
  intros Hl Hq. induction l as [|w l IH]; [congruence|].
  destruct l as [|w' l].
  - simpl. now rewrite strip_app_blank.
  - change (strip w :: map strip (app_last (w' :: l) q)
            = strip w :: map strip (w' :: l)).
    f_equal. apply IH. discriminate.
Qed.

Lemma descriptor_spec_no_colon (d : str) :
  free (ord ":") d -> descriptor_spec d = [].
Proof.
  intros Hd. unfold descriptor_spec. destruct d; [reflexivity|].
  now rewrite split_free.
Qed.

Lemma descriptor_spec_length (d : str) :
  (List.length (descriptor_spec d) <= 1)%nat.
Proof.
  unfold descriptor_spec. destruct d as [|c d]; [simpl; lia|].
  destruct (split (ord ":") (c :: d)) as [|t [|x [|y [|z l]]]];
    simpl; lia.
Qed.

(** ** More on the action parser *)

(** X12.  The parser works descriptor by descriptor: the records of two
    inputs joined by a [,] are the records of the first followed by the
    records of the second. *)
Theorem parse_actions_app_comma (a b : str) :
  parse_actions (a ++ ord "," :: b) = parse_actions a ++ parse_actions b.
Proof.
  rewrite !parse_actions_flat_map. unfold ActionSpecParser_spec.
  now rewrite split_at_sep, map_app, flat_map_app.
Qed.

(** X13.  Whitespace before and after the input is ignored; with X12,
    so is whitespace on either side of any comma. *)
Theorem parse_actions_ignores_padding (p raw q : str) :
  blank p -> blank q ->
  parse_actions (p ++ raw ++ q) = parse_actions raw.
Proof.
  intros Hp Hq. rewrite !parse_actions_flat_map.
  unfold ActionSpecParser_spec.
  rewrite split_prepend by (now apply blank_free).
  rewrite split_append by (now apply blank_free).
  pose proof (split_not_nil (ord ",") raw) as Hnn.
  pose proof (map_strip_app_last (split (ord ",") raw) q Hnn Hq) as Hmap.
  destruct (app_last (split (ord ",") raw) q) as [|w ws] eqn:Hlast.
  - destruct (split (ord ",") raw) as [|x [|y l]]; discriminate.
  - rewrite <- Hmap. simpl. now rewrite strip_blank_app.
Qed.

Lemma parse_actions_ignores_padding_witness :
  parse_actions (py "  Build:make , Test:make test  ")
  = parse_actions (py "Build:make , Test:make test").
Proof.
  apply (parse_actions_ignores_padding (py "  ")
           (py "Build:make , Test:make test") (py "  "));
    repeat constructor.
Defined.

(** X14.  An input without any [:] yields no action, whatever else it
    holds. *)
Theorem parse_actions_needs_colon (raw : str) :
  free (ord ":") raw -> parse_actions raw = [].
Proof.
  intros Hraw. rewrite parse_actions_flat_map.
  unfold ActionSpecParser_spec.
  assert (Hall : Forall (fun spec => incl spec raw) (split (ord ",") raw)).
  { apply Forall_forall. intros spec. apply split_incl. }
  induction Hall as [|spec l Hspec _ IH]; [reflexivity|].
  simpl. rewrite IH, app_nil_r.
  apply descriptor_spec_no_colon.
  eapply free_incl; [|exact Hraw].
  eapply incl_tran; [apply strip_incl|exact Hspec].
Qed.

Lemma parse_actions_needs_colon_witness :
  parse_actions (py "make build, make test,,") = [].
Proof.
  apply (parse_actions_needs_colon (py "make build, make test,,")).
  absent.
Defined.

(** X15.  No field of a parsed action holds a [:] or a [,]; the tooltip
    does not start and the command does not end with whitespace. *)
Theorem parse_actions_fields_clean (raw : str) (a : ActionSpec) :
  In a (parse_actions raw) ->
  Forall (fun f => ~ In (ord ":") f /\ ~ In (ord ",") f)
    [tooltip a; icon a; command a]
  /\ starts_clean (tooltip a)
  /\ ends_clean (command a).
Proof.
  intros Ha. pose proof (parse_actions_canonical raw) as Hall.
  rewrite Forall_forall in Hall. exact (Hall a Ha).
Qed.

Lemma parse_actions_fields_clean_witness :
  starts_clean (py "Run tests ") /\ ends_clean (py " make test").
Proof.
  apply (parse_actions_fields_clean (py " Run tests : make test ,x")
           (mkAction (py "Run tests ") DEFAULT_ICON (py " make test"))).
  left. reflexivity.
Defined.

(** X16.  There is at most one action per descriptor: the number of
    actions is at most one more than the number of commas of the input. *)
Theorem parse_actions_length (raw : str) :
  (List.length (parse_actions raw)
   <= S (count_occ N.eq_dec raw (ord ",")))%nat.
Proof.
  rewrite parse_actions_flat_map. unfold ActionSpecParser_spec.
  rewrite <- split_length, <- (length_map strip).
  induction (map strip (split (ord ",") raw)) as [|d l IH];
    simpl; [lia|].
  rewrite length_app. pose proof (descriptor_spec_length d). lia.
Qed.

(** ** More on the command line *)

Section CommandLineMore.

Context {host : Host}.

(** X17.  A non-empty value of [--env] with [n] spaces gives [n + 1]
    tokens. *)
Theorem parse_env_length (v : str) :
  v <> [] ->
  List.length (parse_env v) = S (count_occ N.eq_dec v (ord " ")).
Proof.
  intros Hv. rewrite parse_env_nonempty by assumption.
  apply split_length.
Qed.

(** X18.  The palette is read from the first two tokens of the value
    only: for tokens [t0] and [t1] without a space, the value
    [t0 t1 rest] gives the same two colours as [t0 t1], whatever
    [rest] is; [t1] may be empty, as it is after a doubled space. *)
Theorem parse_palette_first_two (t0 t1 rest : str) :
  free (ord " ") t0 -> free (ord " ") t1 ->
  parse_palette (t0 ++ ord " " :: t1 ++ ord " " :: rest)
  = [snd (RGBA_parse RGBA_new t0); snd (RGBA_parse RGBA_new t1)]
  /\ parse_palette (t0 ++ ord " " :: t1)
     = [snd (RGBA_parse RGBA_new t0); snd (RGBA_parse RGBA_new t1)].
Proof.
  intros H0 H1. unfold parse_palette.
  rewrite !split_app by assumption.
  rewrite split_free by assumption. split; reflexivity.
Qed.

End CommandLineMore.

Lemma parse_env_length_witness :
  List.length (parse_env (py " A=1  B=2")) = 4%nat.
Proof.
  apply (parse_env_length (py " A=1  B=2")). discriminate.
Defined.

Lemma parse_palette_first_two_witness :
  @parse_palette example_host (py "#fff  #000") = [white; mkRGBA 1 1 1 1]
  /\ @parse_palette example_host (py "#fff ") = [white; mkRGBA 1 1 1 1].
Proof.
  apply (@parse_palette_first_two example_host (py "#fff") [] (py "#000"));
    absent.
Defined.
